(** * Mgmt: the Bluetooth Management command codec of the GATT server

    A shallow embedding of [src/Mgmt.cpp] (namespace [ggk], class [Mgmt]):
    the packed request structures, the name truncation helpers, the state
    setters and the reference advertising instance, together with the
    transport ([HciAdapter]) and the logger seen as an explicit world that
    every operation threads through. *)

From Stdlib Require Import ZArith Lia List String.
From Stdlib Require Import Init.Byte.
From stdpp Require Import base list pretty.

Local Open Scope Z_scope.

(** ** Machine integers

    Scalar fields are unbounded integers; each conversion to an unsigned
    C++ type is written out as a reduction modulo the width. *)

Definition u8  (x : Z) : Z := x mod 2^8.
Definition u16 (x : Z) : Z := x mod 2^16.
Definition usize (x : Z) : Z := x mod 2^64.

(** The byte holding the low eight bits of [x]. *)
Definition byte_of_Z (x : Z) : byte :=
  match Byte.of_N (Z.to_N (u8 x)) with
  | Some b => b
  | None => x00
  end.

Definition Z_of_byte (b : byte) : Z := Z.of_N (Byte.to_N b).

(** Little-endian images of the scalar types. *)
Definition le16 (x : Z) : list byte :=
  [byte_of_Z x; byte_of_Z (x / 2^8)].

Definition le32 (x : Z) : list byte :=
  [byte_of_Z x; byte_of_Z (x / 2^8); byte_of_Z (x / 2^16); byte_of_Z (x / 2^24)].

Definition le16_decode (lo hi : byte) : Z := Z_of_byte lo + 2^8 * Z_of_byte hi.

(** ** C strings and raw memory helpers *)

(** A [std::string] is a sequence of bytes, possibly with embedded NULs. *)
Abbreviation cppstring := (list byte).

(** [s.length()] *)
Definition str_length (s : cppstring) : nat := length s.

(** [s.substr(0, n)]: the first [n] characters, or all of [s] when it is
    shorter. *)
Definition substr0 (s : cppstring) (n : nat) : cppstring := take n s.

(** What a reader of [s.c_str()] sees: the characters before the first
    NUL. *)
Fixpoint c_str (s : cppstring) : list byte :=
  match s with
  | [] => []
  | c :: s' => if Byte.eqb c x00 then [] else c :: c_str s'
  end.

(** [memset(buf, 0, sizeof buf)] on an array of [size] bytes. *)
Definition memset0 (size : nat) : list byte := replicate size x00.

(** [snprintf(buf, size, "%s", s)]: at most [size - 1] characters of the C
    string [s] are written at the start of [buf], followed by a NUL; the
    rest of [buf] is left as it was.  With [size = 0] nothing is written. *)
Definition snprintf_s (buf : list byte) (size : nat) (s : list byte) : list byte :=
  match size with
  | O => buf
  | S room =>
      let written := take room s in
      written ++ [x00] ++ drop (S (length written)) buf
  end.

(** [memcpy(&dst[off], src, n)] where [src] holds at least [n] bytes. *)
Definition memcpy_at (dst : list byte) (off : nat) (src : list byte) (n : nat)
  : list byte :=
  take off dst ++ take n src ++ drop (off + n)%nat dst.

(** ** Packed structure layouts

    Every request structure carries [__attribute__((packed))]: its fields
    are laid out in declaration order, each directly after the previous
    one, and [sizeof] is the sum of the field sizes. *)

Inductive ctype :=
| TUint8
| TUint16
| TUint32
| TArray (n : nat).   (* [char[n]] or [uint8_t[n]] *)

Definition sizeof_ctype (t : ctype) : nat :=
  match t with
  | TUint8 => 1
  | TUint16 => 2
  | TUint32 => 4
  | TArray n => n
  end.

Definition sizeof_packed (fields : list ctype) : nat :=
  foldr (fun t acc => (sizeof_ctype t + acc)%nat) 0%nat fields.

(** Modelled from the spec: [HciAdapter::HciHeader] is declared in
    HciAdapter.h, which is not part of the sources at hand.  The data
    model gives it three unsigned 16-bit fields, command code, controller
    index and payload length, serialised little-endian with no padding. *)
Record HciHeader := mkHciHeader {
  code : Z;
  controllerId : Z;
  dataSize : Z
}.

Definition HciHeader_fields : list ctype := [TUint16; TUint16; TUint16].

Definition HciHeader_bytes (h : HciHeader) : list byte :=
  le16 (code h) ++ le16 (controllerId h) ++ le16 (dataSize h).

(** ** Declarations of Mgmt.h

    The class declaration is not part of the sources at hand, so the
    constants it declares are kept abstract: the two name limits (lengths,
    hence natural numbers), the numeric values of the command enumeration
    and the adapter's table of command names used in warnings. *)

Inductive Commands :=
| ESetPoweredCommand
| ESetConnectableCommand
| ESetBondableCommand
| ESetLowEnergyCommand
| ESetLocalNameCommand
| ESetAdvertisingCommand
| ESetBREDRCommand
| ESetSecureConnectionsCommand
| EAddAdvertisingCommand.

Class MgmtDecls := {
  kMaxAdvertisingNameLength : nat;
  kMaxAdvertisingShortNameLength : nat;
  commandValue : Commands -> Z;
  kCommandCodeNames : Z -> string
}.

(** The transport, [HciAdapter]: an opaque device with a state of its own
    that is synchronised once and then accepts or rejects each frame. *)
Class Transport := {
  adapter : Type;
  sync : Z -> adapter -> adapter;
  sendCommand : list byte -> adapter -> bool * adapter
}.

(** ** Request structures *)

(** [setName]'s [SRequest]. *)
Record SetNameRequest := mkSetNameRequest {
  sn_hdr : HciHeader;
  sn_name : list byte;        (* char name[249] *)
  sn_shortName : list byte    (* char shortName[11] *)
}.

Definition SetNameRequest_fields : list ctype :=
  HciHeader_fields ++ [TArray 249; TArray 11].

(** [setState]'s [SRequest]. *)
Record SetStateRequest := mkSetStateRequest {
  ss_hdr : HciHeader;
  ss_state : Z                (* uint8_t state *)
}.

Definition SetStateRequest_fields : list ctype :=
  HciHeader_fields ++ [TUint8].

Definition ADVERTISING_MAX_DATALEN : nat := 31.
Definition SCAN_RSP_MAX_DATALEN : nat := 17.

(** [addAdvertising]'s [SRequest]. *)
Record AddAdvertisingRequest := mkAddAdvertisingRequest {
  aa_hdr : HciHeader;
  aa_instance : Z;            (* uint8_t  *)
  aa_flags : Z;               (* uint32_t *)
  aa_duration : Z;            (* uint16_t *)
  aa_timeout : Z;             (* uint16_t *)
  aa_advDataLen : Z;          (* uint8_t  *)
  aa_scanRspLen : Z;          (* uint8_t  *)
  aa_data : list byte;        (* uint8_t data[ADVERTISING_MAX_DATALEN] *)
  aa_scanRspData : list byte  (* uint8_t scanRspData[SCAN_RSP_MAX_DATALEN] *)
}.

Definition AddAdvertisingRequest_fields : list ctype :=
  HciHeader_fields ++
  [TUint8; TUint32; TUint16; TUint16; TUint8; TUint8;
   TArray ADVERTISING_MAX_DATALEN; TArray SCAN_RSP_MAX_DATALEN].

(** What [sendCommand] is handed: one of the three request structures,
    seen through its header. *)
Inductive Request :=
| ReqSetName (r : SetNameRequest)
| ReqSetState (r : SetStateRequest)
| ReqAddAdvertising (r : AddAdvertisingRequest).

Definition Request_hdr (r : Request) : HciHeader :=
  match r with
  | ReqSetName q => sn_hdr q
  | ReqSetState q => ss_hdr q
  | ReqAddAdvertising q => aa_hdr q
  end.

Definition Request_fields (r : Request) : list ctype :=
  match r with
  | ReqSetName _ => SetNameRequest_fields
  | ReqSetState _ => SetStateRequest_fields
  | ReqAddAdvertising _ => AddAdvertisingRequest_fields
  end.

(** The byte image of a request: every field in declaration order,
    scalars little-endian as on the wire, nothing in between. *)
Definition Request_bytes (r : Request) : list byte :=
  match r with
  | ReqSetName q =>
      le16 (code (sn_hdr q)) ++ le16 (controllerId (sn_hdr q)) ++
      le16 (dataSize (sn_hdr q)) ++
      sn_name q ++ sn_shortName q
  | ReqSetState q =>
      le16 (code (ss_hdr q)) ++ le16 (controllerId (ss_hdr q)) ++
      le16 (dataSize (ss_hdr q)) ++
      [byte_of_Z (ss_state q)]
  | ReqAddAdvertising q =>
      le16 (code (aa_hdr q)) ++ le16 (controllerId (aa_hdr q)) ++
      le16 (dataSize (aa_hdr q)) ++
      [byte_of_Z (aa_instance q)] ++ le32 (aa_flags q) ++
      le16 (aa_duration q) ++ le16 (aa_timeout q) ++
      [byte_of_Z (aa_advDataLen q)] ++ [byte_of_Z (aa_scanRspLen q)] ++
      aa_data q ++ aa_scanRspData q
  end.

(** [sizeof(SRequest) - sizeof(HciAdapter::HciHeader)], computed in
    [size_t] and stored in the 16-bit [dataSize]. *)
Definition payload_size (fields : list ctype) : Z :=
  u16 (usize (Z.of_nat (sizeof_packed fields)
              - Z.of_nat (sizeof_packed HciHeader_fields))).

(** ** Advertising data entries

    How the receiver reads the two buffers of an advertising request, as
    the comments of [addAdvertising] lay them out: a stream of entries,
    each a length byte that counts the type byte and the value bytes after
    it, the type byte, then the value.  A zero length byte ends the
    stream.  [fuel] bounds the number of entries read; [ad_parse] gives it
    the length of the buffer, which is always enough since every entry
    takes at least two bytes. *)
Record ADEntry := mkADEntry {
  ad_len : Z;
  ad_type : byte;
  ad_value : list byte
}.

Fixpoint ad_entries (fuel : nat) (buf : list byte) : list ADEntry :=
  match fuel with
  | O => []
  | S fuel' =>
      match buf with
      | [] => []
      | l :: rest =>
          let n := Z.to_nat (Z_of_byte l) in
          match n, rest with
          | O, _ => []
          | _, [] => []
          | S m, t :: vs =>
              mkADEntry (Z_of_byte l) t (take m vs) :: ad_entries fuel' (drop m vs)
          end
      end
  end.

(** The number of buffer bytes a list of entries spans. *)
Definition ad_span (es : list ADEntry) : Z :=
  foldr (fun e acc => 1 + ad_len e + acc) 0 es.

Definition ad_parse (buf : list byte) : list ADEntry :=
  ad_entries (length buf) buf.

(** ** The world the operations run in *)

Section Facade.

Context {decls : MgmtDecls} {hci : Transport}.

(** The adapter singleton, the frames handed to it so far (oldest first)
    and the warnings logged so far (oldest first). *)
Record World := mkWorld {
  w_adapter : adapter;
  w_sent : list Request;
  w_warnings : list string
}.

Definition M (A : Type) : Type := World -> A * World.

Definition ret {A} (a : A) : M A := fun w => (a, w).

Definition bind {A B} (m : M A) (k : A -> M B) : M B :=
  fun w => let (a, w') := m w in k a w'.

Notation "x <- m ;; k" := (bind m (fun x => k))
  (at level 100, m at next level, right associativity).
Notation "m ;; k" := (bind m (fun _ => k))
  (at level 100, right associativity).

(** [HciAdapter::getInstance().sync(controllerIndex)] *)
Definition HciAdapter_sync (controllerIndex : Z) : M unit :=
  fun w => (tt, mkWorld (sync controllerIndex (w_adapter w))
                        (w_sent w) (w_warnings w)).

(** [HciAdapter::getInstance().sendCommand(request)] *)
Definition HciAdapter_sendCommand (request : Request) : M bool :=
  fun w =>
    let (accepted, a') := sendCommand (Request_bytes request) (w_adapter w) in
    (accepted, mkWorld a' (w_sent w ++ [request]) (w_warnings w)).

(** [Logger::warn(text)] *)
Definition Logger_warn (text : string) : M unit :=
  fun w => (tt, mkWorld (w_adapter w) (w_sent w) (w_warnings w ++ [text])).

(** ** The class *)

Record Mgmt := mkMgmt {
  controllerIndex : Z   (* uint16_t *)
}.

(** [Mgmt::Mgmt(uint16_t controllerIndex)] *)
Definition Mgmt_new (controllerIndex : Z) : M Mgmt :=
  HciAdapter_sync controllerIndex ;;
  ret (mkMgmt controllerIndex).

(** [Mgmt::truncateName] *)
Definition truncateName (name : cppstring) : cppstring :=
  if (str_length name <=? kMaxAdvertisingNameLength)%nat
  then name
  else substr0 name kMaxAdvertisingNameLength.

(** [Mgmt::truncateShortName] *)
Definition truncateShortName (name : cppstring) : cppstring :=
  if (str_length name <=? kMaxAdvertisingShortNameLength)%nat
  then name
  else substr0 name kMaxAdvertisingShortNameLength.

(** The request [setName] fills in before sending it. *)
Definition setName_request (self : Mgmt) (name shortName : cppstring)
  : SetNameRequest :=
  let name := truncateName name in
  let shortName := truncateShortName shortName in
  {| sn_hdr :=
       {| code := u16 (commandValue ESetLocalNameCommand);
          controllerId := controllerIndex self;
          dataSize := payload_size SetNameRequest_fields |};
     sn_name := snprintf_s (memset0 249) 249 (c_str name);
     sn_shortName := snprintf_s (memset0 11) 11 (c_str shortName) |}.

(** [Mgmt::setName] *)
Definition setName (self : Mgmt) (name shortName : cppstring) : M bool :=
  let request := setName_request self name shortName in
  accepted <- HciAdapter_sendCommand (ReqSetName request) ;;
  if negb accepted
  then Logger_warn "  + Failed to set name" ;; ret false
  else ret true.

(** The request [setState] fills in before sending it. *)
Definition setState_request (commandCode controllerId newState : Z)
  : SetStateRequest :=
  {| ss_hdr :=
       {| code := commandCode;
          controllerId := controllerId;
          dataSize := payload_size SetStateRequest_fields |};
     ss_state := newState |}.

(** The text [setState] logs on failure; [newState] is printed as a
    decimal [int]. *)
Definition setState_warning (commandCode newState : Z) : string :=
  ("  + Failed to set " ++ kCommandCodeNames commandCode
   ++ " state to: " ++ pretty newState)%string.

(** [Mgmt::setState] *)
Definition setState (self : Mgmt) (commandCode controllerId newState : Z)
  : M bool :=
  let request := setState_request commandCode controllerId newState in
  accepted <- HciAdapter_sendCommand (ReqSetState request) ;;
  if negb accepted
  then Logger_warn (setState_warning commandCode newState) ;; ret false
  else ret true.

(** [newState ? 1 : 0], converted to [uint8_t]. *)
Definition bool_state (newState : bool) : Z := u8 (if newState then 1 else 0).

(** A command enumerator passed as the [uint16_t commandCode]. *)
Definition command_code (c : Commands) : Z := u16 (commandValue c).

(** [Mgmt::setPowered] *)
Definition setPowered (self : Mgmt) (newState : bool) : M bool :=
  setState self (command_code ESetPoweredCommand) (controllerIndex self)
           (bool_state newState).

(** [Mgmt::setBredr] *)
Definition setBredr (self : Mgmt) (newState : bool) : M bool :=
  setState self (command_code ESetBREDRCommand) (controllerIndex self)
           (bool_state newState).

(** [Mgmt::setSecureConnections] *)
Definition setSecureConnections (self : Mgmt) (newState : Z) : M bool :=
  setState self (command_code ESetSecureConnectionsCommand)
           (controllerIndex self) newState.

(** [Mgmt::setBondable] *)
Definition setBondable (self : Mgmt) (newState : bool) : M bool :=
  setState self (command_code ESetBondableCommand) (controllerIndex self)
           (bool_state newState).

(** [Mgmt::setConnectable] *)
Definition setConnectable (self : Mgmt) (newState : bool) : M bool :=
  setState self (command_code ESetConnectableCommand) (controllerIndex self)
           (bool_state newState).

(** [Mgmt::setLE] *)
Definition setLE (self : Mgmt) (newState : bool) : M bool :=
  setState self (command_code ESetLowEnergyCommand) (controllerIndex self)
           (bool_state newState).

(** [Mgmt::setAdvertising] *)
Definition setAdvertising (self : Mgmt) (newState : Z) : M bool :=
  setState self (command_code ESetAdvertisingCommand) (controllerIndex self)
           newState.

(** [buf[i] = v] for each pair, in order. *)
Definition store_all (stores : list (nat * byte)) (buf : list byte) : list byte :=
  foldl (fun b s => <[s.1 := s.2]> b) buf stores.

(** The assignments to [request.data] in [addAdvertising]. *)
Definition adv_data_stores : list (nat * byte) :=
  [ (* AD Data 1 <<Flags>> *)
    (0, x02);    (* length *)
    (1, x01);    (* type --> flags *)
    (2, x06);    (* BR/EDR not supported | General discoverable mode *)
    (* AD Data 2 <<Manufacturer Specific Data>> *)
    (3, x1b);    (* length *)
    (4, xff);    (* type --> Manufacturer Specific data *)
    (5, xa6); (6, x02);   (* Company *)
    (7, x00);    (* Model *)
    (8, x00);    (* PCBA_Version *)
    (9, x00);    (* Error_Code_Status *)
    (10, x64);   (* Battery, 100u *)
    (* Serial number *)
    (11, xb0); (12, xd0); (13, x56); (14, xf2); (15, xb5); (16, x12);
    (17, x00); (18, x00); (19, x00); (20, x00)
    (* Reserved 21-31 *) ]%nat.

(** The assignments to [request.scanRspData] before the name is copied. *)
Definition scan_rsp_stores : list (nat * byte) :=
  [ (0, x10);    (* length *)
    (1, x09)     (* Complete local name *) ]%nat.

Definition local_name : string := "SKYWALKER-XXXXX".

(** The request [addAdvertising] fills in before sending it; the
    structure starts out zeroed ([SRequest request{}]). *)
Definition addAdvertising_request (self : Mgmt) : AddAdvertisingRequest :=
  {| aa_hdr :=
       {| code := u16 (commandValue EAddAdvertisingCommand);
          controllerId := controllerIndex self;
          dataSize := payload_size AddAdvertisingRequest_fields |};
     aa_instance := 0x01;
     aa_flags := 0;
     aa_duration := 0;
     aa_timeout := 0;
     aa_advDataLen := u8 (Z.of_nat ADVERTISING_MAX_DATALEN);
     aa_scanRspLen := u8 (Z.of_nat SCAN_RSP_MAX_DATALEN);
     aa_data := store_all adv_data_stores (memset0 ADVERTISING_MAX_DATALEN);
     aa_scanRspData :=
       memcpy_at (store_all scan_rsp_stores (memset0 SCAN_RSP_MAX_DATALEN))
                 2 (list_byte_of_string local_name ++ [x00])
                 (SCAN_RSP_MAX_DATALEN - 2) |}.

(** [Mgmt::addAdvertising] *)
Definition addAdvertising (self : Mgmt) : M bool :=
  let request := addAdvertising_request self in
  accepted <- HciAdapter_sendCommand (ReqAddAdvertising request) ;;
  if negb accepted
  then Logger_warn "  + Failed to start advertising with UUID" ;; ret false
  else ret true.

(** ** The public operations as data *)

Inductive PublicOp :=
| OpSetName (name shortName : cppstring)
| OpSetState (commandCode controllerId newState : Z)
| OpSetPowered (newState : bool)
| OpSetBredr (newState : bool)
| OpSetSecureConnections (newState : Z)
| OpSetBondable (newState : bool)
| OpSetConnectable (newState : bool)
| OpSetLE (newState : bool)
| OpSetAdvertising (newState : Z)
| OpAddAdvertising.

Definition run (self : Mgmt) (op : PublicOp) : M bool :=
  match op with
  | OpSetName name shortName => setName self name shortName
  | OpSetState c i s => setState self c i s
  | OpSetPowered b => setPowered self b
  | OpSetBredr b => setBredr self b
  | OpSetSecureConnections s => setSecureConnections self s
  | OpSetBondable b => setBondable self b
  | OpSetConnectable b => setConnectable self b
  | OpSetLE b => setLE self b
  | OpSetAdvertising s => setAdvertising self s
  | OpAddAdvertising => addAdvertising self
  end.

(** The boolean setters, each with the command it is written to send. *)
Inductive BoolSetter :=
| Powered | Bredr | Bondable | Connectable | LE.

Definition BoolSetter_op (k : BoolSetter) (newState : bool) : PublicOp :=
  match k with
  | Powered => OpSetPowered newState
  | Bredr => OpSetBredr newState
  | Bondable => OpSetBondable newState
  | Connectable => OpSetConnectable newState
  | LE => OpSetLE newState
  end.

Definition BoolSetter_command (k : BoolSetter) : Commands :=
  match k with
  | Powered => ESetPoweredCommand
  | Bredr => ESetBREDRCommand
  | Bondable => ESetBondableCommand
  | Connectable => ESetConnectableCommand
  | LE => ESetLowEnergyCommand
  end.

(** The frame an operation hands to the adapter, and the text of the
    warning expected in the log when that frame is rejected, written out
    in full: for the state setters it names the command through the
    adapter's table of command names and gives the state in decimal. *)
Definition frame_of (self : Mgmt) (op : PublicOp) : Request :=
  match op with
  | OpSetName name shortName => ReqSetName (setName_request self name shortName)
  | OpSetState c i s => ReqSetState (setState_request c i s)
  | OpSetPowered b =>
      ReqSetState (setState_request (command_code ESetPoweredCommand)
                                    (controllerIndex self) (bool_state b))
  | OpSetBredr b =>
      ReqSetState (setState_request (command_code ESetBREDRCommand)
                                    (controllerIndex self) (bool_state b))
  | OpSetSecureConnections s =>
      ReqSetState (setState_request (command_code ESetSecureConnectionsCommand)
                                    (controllerIndex self) s)
  | OpSetBondable b =>
      ReqSetState (setState_request (command_code ESetBondableCommand)
                                    (controllerIndex self) (bool_state b))
  | OpSetConnectable b =>
      ReqSetState (setState_request (command_code ESetConnectableCommand)
                                    (controllerIndex self) (bool_state b))
  | OpSetLE b =>
      ReqSetState (setState_request (command_code ESetLowEnergyCommand)
                                    (controllerIndex self) (bool_state b))
  | OpSetAdvertising s =>
      ReqSetState (setState_request (command_code ESetAdvertisingCommand)
                                    (controllerIndex self) s)
  | OpAddAdvertising => ReqAddAdvertising (addAdvertising_request self)
  end.

Definition warning_of (op : PublicOp) : string :=
  match op with
  | OpSetName _ _ => "  + Failed to set name"
  | OpSetState c _ s =>
      "  + Failed to set " ++ kCommandCodeNames c
      ++ " state to: " ++ pretty s
  | OpSetPowered b =>
      "  + Failed to set "
      ++ kCommandCodeNames (u16 (commandValue ESetPoweredCommand))
      ++ " state to: " ++ (if b then "1" else "0")
  | OpSetBredr b =>
      "  + Failed to set "
      ++ kCommandCodeNames (u16 (commandValue ESetBREDRCommand))
      ++ " state to: " ++ (if b then "1" else "0")
  | OpSetSecureConnections s =>
      "  + Failed to set "
      ++ kCommandCodeNames (u16 (commandValue ESetSecureConnectionsCommand))
      ++ " state to: " ++ pretty s
  | OpSetBondable b =>
      "  + Failed to set "
      ++ kCommandCodeNames (u16 (commandValue ESetBondableCommand))
      ++ " state to: " ++ (if b then "1" else "0")
  | OpSetConnectable b =>
      "  + Failed to set "
      ++ kCommandCodeNames (u16 (commandValue ESetConnectableCommand))
      ++ " state to: " ++ (if b then "1" else "0")
  | OpSetLE b =>
      "  + Failed to set "
      ++ kCommandCodeNames (u16 (commandValue ESetLowEnergyCommand))
      ++ " state to: " ++ (if b then "1" else "0")
  | OpSetAdvertising s =>
      "  + Failed to set "
      ++ kCommandCodeNames (u16 (commandValue ESetAdvertisingCommand))
      ++ " state to: " ++ pretty s
  | OpAddAdvertising => "  + Failed to start advertising with UUID"
  end%string.

(** Whether an operation is the generic helper called directly. *)
Definition is_setState (op : PublicOp) : bool :=
  match op with
  | OpSetState _ _ _ => true
  | _ => false
  end.

(** What a warning is expected to tell about the operation it belongs
    to: which of the three kinds of request failed and, for a state
    setter, under which command code and with which state. *)
Inductive OpKind :=
| KindName
| KindState
| KindAdvertising.

Definition op_kind (op : PublicOp) : OpKind :=
  match op with
  | OpSetName _ _ => KindName
  | OpAddAdvertising => KindAdvertising
  | _ => KindState
  end.

Definition op_command (op : PublicOp) : option Z :=
  match op with
  | OpSetName _ _ => None
  | OpSetState c _ _ => Some c
  | OpSetPowered _ => Some (u16 (commandValue ESetPoweredCommand))
  | OpSetBredr _ => Some (u16 (commandValue ESetBREDRCommand))
  | OpSetSecureConnections _ =>
      Some (u16 (commandValue ESetSecureConnectionsCommand))
  | OpSetBondable _ => Some (u16 (commandValue ESetBondableCommand))
  | OpSetConnectable _ => Some (u16 (commandValue ESetConnectableCommand))
  | OpSetLE _ => Some (u16 (commandValue ESetLowEnergyCommand))
  | OpSetAdvertising _ => Some (u16 (commandValue ESetAdvertisingCommand))
  | OpAddAdvertising => None
  end.

Definition op_state (op : PublicOp) : option Z :=
  match op with
  | OpSetName _ _ => None
  | OpSetState _ _ s => Some s
  | OpSetPowered b => Some (if b then 1 else 0)
  | OpSetBredr b => Some (if b then 1 else 0)
  | OpSetSecureConnections s => Some s
  | OpSetBondable b => Some (if b then 1 else 0)
  | OpSetConnectable b => Some (if b then 1 else 0)
  | OpSetLE b => Some (if b then 1 else 0)
  | OpSetAdvertising s => Some s
  | OpAddAdvertising => None
  end.

End Facade.

Arguments World {hci}.
Arguments mkWorld {hci}.

(** ** Sample instantiations

    Used to evaluate the model on concrete inputs: the declarations with
    the opcode numbering of the kernel's management interface, and two
    stub transports that reject, respectively accept, every frame. *)

Definition sample_decls : MgmtDecls := {|
  kMaxAdvertisingNameLength := 248;
  kMaxAdvertisingShortNameLength := 10;
  commandValue := fun c =>
    match c with
    | ESetPoweredCommand => 0x0005
    | ESetConnectableCommand => 0x0007
    | ESetBondableCommand => 0x0009
    | ESetLowEnergyCommand => 0x000D
    | ESetLocalNameCommand => 0x000F
    | ESetAdvertisingCommand => 0x0029
    | ESetBREDRCommand => 0x002A
    | ESetSecureConnectionsCommand => 0x002D
    | EAddAdvertisingCommand => 0x003E
    end;
  kCommandCodeNames := fun c => ("Command " ++ pretty c)%string
|}.

Definition rejecting_transport : Transport := {|
  adapter := unit;
  sync := fun _ a => a;
  sendCommand := fun _ a => (false, a)
|}.

Definition accepting_transport : Transport := {|
  adapter := unit;
  sync := fun _ a => a;
  sendCommand := fun _ a => (true, a)
|}.

Definition empty_world (T : Transport) (a : @adapter T) : @World T :=
  mkWorld a [] [].

Definition sample_self : Mgmt := mkMgmt 0.

Definition sample_world : @World rejecting_transport :=
  empty_world rejecting_transport tt.

Definition sample_world_ok : @World accepting_transport :=
  empty_world accepting_transport tt.

(** ** Callers and receivers

    What surrounds the class: a caller that issues operations one after
    the other and collects their results, the adapter taken on its own
    and fed a list of frames, and the receiver's reading of the six header
    bytes of a frame. *)

Section Sessions.

Context {decls : MgmtDecls} {hci : Transport}.

Fixpoint run_all (self : Mgmt) (ops : list PublicOp) : M (list bool) :=
  match ops with
  | [] => ret []
  | op :: ops' =>
      bind (run self op) (fun r =>
      bind (run_all self ops') (fun rs =>
      ret (r :: rs)))
  end.

Fixpoint feed (a : adapter) (frames : list Request) : list bool * adapter :=
  match frames with
  | [] => ([], a)
  | f :: fs =>
      let (v, a') := sendCommand (Request_bytes f) a in
      let (vs, a'') := feed a' fs in
      (v :: vs, a'')
  end.

(** The warnings of the operations whose verdict is a rejection. *)
Fixpoint rejected_warnings (ops : list PublicOp) (verdicts : list bool)
  : list string :=
  match ops, verdicts with
  | op :: ops', v :: vs' =>
      (if v then [] else [warning_of op]) ++ rejected_warnings ops' vs'
  | _, _ => []
  end.

End Sessions.

Definition HciHeader_decode (image : list byte) : option HciHeader :=
  match image with
  | c0 :: c1 :: i0 :: i1 :: d0 :: d1 :: _ =>
      Some (mkHciHeader (le16_decode c0 c1) (le16_decode i0 i1)
                        (le16_decode d0 d1))
  | _ => None
  end.

(** * Properties *)

(** ** Raw memory helpers *)

Lemma Z_of_byte_of_Z (x : Z) : 0 <= x < 256 -> Z_of_byte (byte_of_Z x) = x.
Proof.
  intros Hx. unfold Z_of_byte, byte_of_Z, u8.
  rewrite Z.mod_small by (change (2^8) with 256; lia).
  destruct (Byte.of_N (Z.to_N x)) as [b|] eqn:E.
  - apply Byte.to_of_N in E. rewrite E. lia.
  - apply Byte.of_N_None_iff in E. lia.
Qed.

Lemma c_str_no_nul (s : cppstring) : x00 ∉ c_str s.
Proof.
  induction s as [|c s IH]; simpl.
  - apply not_elem_of_nil.
  - destruct (Byte.eqb c x00) eqn:E.
    + apply not_elem_of_nil.
    + apply not_elem_of_cons; split; [|exact IH].
      intros <-. discriminate E.
Qed.

Lemma c_str_prefix (s : cppstring) : c_str s `prefix_of` s.
Proof.
  induction s as [|c s IH]; simpl.
  - reflexivity.
  - destruct (Byte.eqb c x00).
    + apply prefix_nil.
    + now apply prefix_cons.
Qed.

Lemma c_str_stops (s t : list byte) : x00 ∉ s -> c_str (s ++ x00 :: t) = s.
Proof.
  induction s as [|c s IH]; simpl; intros Hs.
  - reflexivity.
  - apply not_elem_of_cons in Hs as [Hc Hs].
    destruct (Byte.eqb c x00) eqn:E.
    + apply Byte.byte_dec_bl in E. congruence.
    + now rewrite IH.
Qed.

Lemma snprintf_s_zeroed (n : nat) (s : list byte) :
  snprintf_s (memset0 (S n)) (S n) s
  = take n s ++ replicate (S n - length (take n s)) x00.
Proof.
  unfold snprintf_s, memset0. f_equal.
  assert (length (take n s) <= n)%nat as Hle by (rewrite length_take; lia).
  rewrite drop_replicate.
  replace (S n - length (take n s))%nat with (S (n - length (take n s)))
    by lia.
  simpl. do 2 f_equal.
Qed.

Lemma snprintf_s_zeroed_length (n : nat) (s : list byte) :
  length (snprintf_s (memset0 (S n)) (S n) s) = S n.
Proof.
  rewrite snprintf_s_zeroed, length_app, length_replicate.
  assert (length (take n s) <= n)%nat by (rewrite length_take; lia). lia.
Qed.

Lemma lookup_zero_tail (l : list byte) (n i : nat) :
  (length l <= i < length l + n)%nat ->
  (l ++ replicate n x00) !! i = Some x00.
Proof.
  intros [Hlo Hhi].
  rewrite lookup_app_r by exact Hlo.
  apply lookup_replicate_2. lia.
Qed.

(** ** The facade *)

Section FacadeProperties.

Context {decls : MgmtDecls} {hci : Transport}.

(** Every operation hands exactly one frame to the adapter, returns the
    adapter's verdict and logs its warning exactly when that verdict is a
    rejection. *)
Lemma run_frame_of (self : Mgmt) (op : PublicOp) (w : World) :
  run self op w =
  let (accepted, a') :=
    sendCommand (Request_bytes (frame_of self op)) (w_adapter w) in
  (accepted,
   mkWorld a' (w_sent w ++ [frame_of self op])
           (w_warnings w ++ if accepted then [] else [warning_of op])).
Proof.
  destruct op as [n sn|c i s|b|b|s|b|b|b|s|];
    unfold run, setName, setPowered, setBredr, setSecureConnections,
      setBondable, setConnectable, setLE, setAdvertising, setState,
      addAdvertising, bind, HciAdapter_sendCommand, Logger_warn, ret;
    cbn [frame_of warning_of];
    match goal with
    | |- context [sendCommand ?b ?a] => destruct (sendCommand b a) as [[] a']
    end;
    cbn [negb w_adapter w_sent w_warnings]; rewrite ?app_nil_r;
    try reflexivity;
    destruct b; reflexivity.
Qed.

Lemma run_sent (self : Mgmt) (op : PublicOp) (w : World) :
  w_sent (run self op w).2 = w_sent w ++ [frame_of self op].
Proof.
  rewrite run_frame_of.
  now destruct (sendCommand _ _) as [accepted a'].
Qed.

Lemma truncate_prefix (limit : nat) (name : cppstring) :
  (if (str_length name <=? limit)%nat then name else substr0 name limit)
    `prefix_of` name.
Proof.
  destruct (str_length name <=? limit)%nat.
  - reflexivity.
  - apply prefix_take.
Qed.

Lemma truncate_length (limit : nat) (name : cppstring) :
  length (if (str_length name <=? limit)%nat then name else substr0 name limit)
  = (length name `min` limit)%nat.
Proof.
  unfold str_length, substr0.
  destruct (length name <=? limit)%nat eqn:E.
  - apply Nat.leb_le in E. lia.
  - apply Nat.leb_gt in E. rewrite length_take. lia.
Qed.

Lemma truncate_id (limit : nat) (name : cppstring) :
  (length name <= limit)%nat ->
  (if (str_length name <=? limit)%nat then name else substr0 name limit) = name.
Proof.
  intros H. unfold str_length.
  now apply Nat.leb_le in H as ->.
Qed.

(** C3: [truncateName] and [truncateShortName] return a prefix of their
    argument whose length is the smaller of the argument's length and the
    respective limit; an argument within the limit comes back unchanged and
    a longer one is cut to exactly the limit.  Both are total. *)
Theorem truncate_spec (name : cppstring) :
  (truncateName name `prefix_of` name
   /\ length (truncateName name)
      = (length name `min` kMaxAdvertisingNameLength)%nat
   /\ ((length name <= kMaxAdvertisingNameLength)%nat ->
       truncateName name = name)
   /\ ((kMaxAdvertisingNameLength < length name)%nat ->
       length (truncateName name) = kMaxAdvertisingNameLength))
  /\
  (truncateShortName name `prefix_of` name
   /\ length (truncateShortName name)
      = (length name `min` kMaxAdvertisingShortNameLength)%nat
   /\ ((length name <= kMaxAdvertisingShortNameLength)%nat ->
       truncateShortName name = name)
   /\ ((kMaxAdvertisingShortNameLength < length name)%nat ->
       length (truncateShortName name) = kMaxAdvertisingShortNameLength)).
Proof.
  unfold truncateName, truncateShortName.
  split; (split; [apply truncate_prefix|]);
    (split; [apply truncate_length|]);
    (split; [apply truncate_id|]);
    intros H; rewrite truncate_length; lia.
Qed.

(** C5: whatever the two strings, the frame [setName] sends has
    [dataSize] 260, the 249-byte name buffer plus the 11-byte short-name
    buffer, and its memory image carries that value in the two bytes of
    the length field. *)
Theorem setName_dataSize (self : Mgmt) (name shortName : cppstring) (w : World) :
  let request := setName_request self name shortName in
  w_sent (setName self name shortName w).2 = w_sent w ++ [ReqSetName request]
  /\ dataSize (sn_hdr request) = 260
  /\ length (sn_name request) = 249%nat
  /\ length (sn_shortName request) = 11%nat
  /\ Request_bytes (ReqSetName request) !! 4%nat = Some x04
  /\ Request_bytes (ReqSetName request) !! 5%nat = Some x01
  /\ le16_decode x04 x01 = 260.
Proof.
  intros request.
  split; [exact (run_sent self (OpSetName name shortName) w)|].
  split; [reflexivity|].
  split; [apply snprintf_s_zeroed_length|].
  split; [apply snprintf_s_zeroed_length|].
  repeat split.
Qed.

(** C6: in the frame [setName] sends, each buffer holds the characters
    copied from the truncated string followed by zero bytes up to the end
    of the buffer, at least one of them: every byte past the copied
    characters, and so every byte past the length of the truncated
    string, is zero, and the buffer read as a C string gives back the
    copied characters. *)
Theorem setName_zero_padded (self : Mgmt) (name shortName : cppstring) (w : World) :
  let request := setName_request self name shortName in
  let copied := take 248 (c_str (truncateName name)) in
  let copiedShort := take 10 (c_str (truncateShortName shortName)) in
  w_sent (setName self name shortName w).2 = w_sent w ++ [ReqSetName request]
  /\ (sn_name request = copied ++ replicate (249 - length copied) x00
      /\ length (sn_name request) = 249%nat
      /\ (length copied <= 248)%nat
      /\ c_str (sn_name request) = copied
      /\ (forall i : nat, (length copied <= i < 249)%nat ->
            sn_name request !! i = Some x00)
      /\ (forall i : nat, (length (truncateName name) <= i < 249)%nat ->
            sn_name request !! i = Some x00))
  /\ (sn_shortName request
        = copiedShort ++ replicate (11 - length copiedShort) x00
      /\ length (sn_shortName request) = 11%nat
      /\ (length copiedShort <= 10)%nat
      /\ c_str (sn_shortName request) = copiedShort
      /\ (forall i : nat, (length copiedShort <= i < 11)%nat ->
            sn_shortName request !! i = Some x00)
      /\ (forall i : nat, (length (truncateShortName shortName) <= i < 11)%nat ->
            sn_shortName request !! i = Some x00)).
Proof.
  intros request copied copiedShort.
  split; [exact (run_sent self (OpSetName name shortName) w)|].
  assert (forall (n : nat) (s : cppstring),
    let buf := snprintf_s (memset0 (S n)) (S n) (c_str s) in
    let c := take n (c_str s) in
    buf = c ++ replicate (S n - length c) x00
    /\ length buf = S n
    /\ (length c <= n)%nat
    /\ c_str buf = c
    /\ (forall i : nat, (length c <= i < S n)%nat -> buf !! i = Some x00)
    /\ (forall i : nat, (length s <= i < S n)%nat -> buf !! i = Some x00))
    as Hbuf.
  { intros n s buf c.
    assert (length c <= n)%nat as Hc by (unfold c; rewrite length_take; lia).
    assert (length c <= length s)%nat as Hcs.
    { unfold c. rewrite length_take.
      pose proof (prefix_length _ _ (c_str_prefix s)). lia. }
    assert (buf = c ++ replicate (S n - length c) x00) as Heq
      by apply snprintf_s_zeroed.
    split; [exact Heq|].
    split; [apply snprintf_s_zeroed_length|].
    split; [exact Hc|].
    split.
    { rewrite Heq.
      replace (S n - length c)%nat with (S (n - length c)) by lia.
      simpl. apply c_str_stops.
      intros Hin. apply (c_str_no_nul s).
      unfold c in Hin. apply elem_of_take in Hin as (i & Hi & _).
      eapply list_elem_of_lookup_2, Hi. }
    split; intros i Hi; rewrite Heq; apply lookup_zero_tail; lia. }
  split.
  - exact (Hbuf 248%nat (truncateName name)).
  - exact (Hbuf 10%nat (truncateShortName shortName)).
Qed.

(** C1: the frame each operation hands to the adapter starts with the
    six header bytes, everything after them is payload, [dataSize] is the
    number of those payload bytes (the header is not counted), the two
    bytes of the length field decode to that number, and the whole image
    is exactly as long as the sum of the field sizes, so no byte of
    padding sits anywhere in it. *)
Theorem payloadLength_exact (self : Mgmt) (op : PublicOp) (w : World) :
  let frame := frame_of self op in
  let image := Request_bytes frame in
  w_sent (run self op w).2 = w_sent w ++ [frame]
  /\ take 6 image = HciHeader_bytes (Request_hdr frame)
  /\ length (HciHeader_bytes (Request_hdr frame)) = 6%nat
  /\ dataSize (Request_hdr frame) = Z.of_nat (length (drop 6 image))
  /\ length image = sizeof_packed (Request_fields frame)
  /\ exists lo hi : byte,
       image !! 4%nat = Some lo /\ image !! 5%nat = Some hi
       /\ le16_decode lo hi = Z.of_nat (length (drop 6 image)).
Proof.
  intros frame image.
  split; [apply run_sent|].
  assert (forall q : SetNameRequest,
    length (sn_name q) = 249%nat -> length (sn_shortName q) = 11%nat ->
    dataSize (sn_hdr q) = 260 ->
    let im := Request_bytes (ReqSetName q) in
    take 6 im = HciHeader_bytes (sn_hdr q)
    /\ length (HciHeader_bytes (sn_hdr q)) = 6%nat
    /\ dataSize (sn_hdr q) = Z.of_nat (length (drop 6 im))
    /\ length im = sizeof_packed SetNameRequest_fields
    /\ exists lo hi : byte,
         im !! 4%nat = Some lo /\ im !! 5%nat = Some hi
         /\ le16_decode lo hi = Z.of_nat (length (drop 6 im))) as HsetName.
  { intros [[c i d] n sn] Hn Hsn Hd. simpl in *. subst d.
    rewrite ?drop_0, !length_app, !Hn, !Hsn.
    do 4 (split; [reflexivity|]).
    exists x04, x01. repeat split. }
  assert (forall c i s : Z,
    let q := setState_request c i s in
    let im := Request_bytes (ReqSetState q) in
    take 6 im = HciHeader_bytes (ss_hdr q)
    /\ length (HciHeader_bytes (ss_hdr q)) = 6%nat
    /\ dataSize (ss_hdr q) = Z.of_nat (length (drop 6 im))
    /\ length im = sizeof_packed SetStateRequest_fields
    /\ exists lo hi : byte,
         im !! 4%nat = Some lo /\ im !! 5%nat = Some hi
         /\ le16_decode lo hi = Z.of_nat (length (drop 6 im))) as HsetState.
  { intros c i s.
    do 4 (split; [reflexivity|]).
    exists x01, x00. repeat split. }
  destruct op; [ | apply HsetState .. | ].
  - apply HsetName;
      [apply snprintf_s_zeroed_length | apply snprintf_s_zeroed_length
      | reflexivity].
  - do 4 (split; [reflexivity|]).
    exists x3b, x00. repeat split.
Qed.

(** C4: each boolean setter sends one [setState] frame under its own
    command code whose state is 1 for [true] and 0 for [false], which is
    also the single payload byte of the frame's image. *)
Theorem bool_setter_state (self : Mgmt) (k : BoolSetter) (newState : bool)
    (w : World) :
  exists request : SetStateRequest,
    w_sent (run self (BoolSetter_op k newState) w).2
      = w_sent w ++ [ReqSetState request]
    /\ code (ss_hdr request) = u16 (commandValue (BoolSetter_command k))
    /\ ss_state request = (if newState then 1 else 0)
    /\ drop 6 (Request_bytes (ReqSetState request))
       = [if newState then x01 else x00].
Proof.
  exists (setState_request (command_code (BoolSetter_command k))
                           (controllerIndex self) (bool_state newState)).
  split; [|destruct newState; repeat split].
  rewrite run_sent. now destruct k.
Qed.

(** C7: the frame [addAdvertising] sends has instance 1 and zero flags,
    duration and timeout.  Its advertising buffer starts with the flags
    entry 02 01 06, followed by an entry of type FF whose value is the
    company identifier A6 02, the model, version, status and battery
    bytes 00 00 00 64 and the serial number B0 D0 56 F2 B5 12 00 00 00
    00.  Its scan response buffer is the one entry 10 09 followed by the
    fifteen characters of the device name. *)
Theorem addAdvertising_reference (self : Mgmt) (w : World) :
  let request := addAdvertising_request self in
  w_sent (addAdvertising self w).2 = w_sent w ++ [ReqAddAdvertising request]
  /\ aa_instance request = 1
  /\ aa_flags request = 0
  /\ aa_duration request = 0
  /\ aa_timeout request = 0
  /\ take 3 (aa_data request) = [x02; x01; x06]
  /\ take 18 (drop 3 (aa_data request))
     = [x1b; xff; xa6; x02; x00; x00; x00; x64;
        xb0; xd0; x56; xf2; xb5; x12; x00; x00; x00; x00]
  /\ (exists e1 e2 : ADEntry,
        ad_parse (aa_data request) = [e1; e2]
        /\ e1 = mkADEntry 0x02 x01 [x06]
        /\ ad_type e2 = xff
        /\ take 16 (ad_value e2)
           = [xa6; x02; x00; x00; x00; x64;
              xb0; xd0; x56; xf2; xb5; x12; x00; x00; x00; x00])
  /\ aa_scanRspData request
     = [x10; x09] ++ list_byte_of_string "SKYWALKER-XXXXX"
  /\ length (list_byte_of_string "SKYWALKER-XXXXX") = 15%nat
  /\ ad_parse (aa_scanRspData request)
     = [mkADEntry 0x10 x09 (list_byte_of_string "SKYWALKER-XXXXX")].
Proof.
  intros request.
  split; [exact (run_sent self OpAddAdvertising w)|].
  do 6 (split; [reflexivity|]).
  split; [|repeat split].
  eexists _, _. repeat split.
Qed.

Lemma string_length_app (s t : string) :
  String.length (s ++ t) = (String.length s + String.length t)%nat.
Proof.
  induction s as [|a s IH]; simpl; [reflexivity|]. now rewrite IH.
Qed.

(** The three shapes a warning can have. *)
Lemma warning_of_shape (op : PublicOp) :
  match op_kind op with
  | KindName => warning_of op = "  + Failed to set name"%string
  | KindAdvertising =>
      warning_of op = "  + Failed to start advertising with UUID"%string
  | KindState =>
      exists c s : Z,
        op_command op = Some c /\ op_state op = Some s
        /\ warning_of op
           = ("  + Failed to set " ++ kCommandCodeNames c
              ++ " state to: " ++ pretty s)%string
  end.
Proof.
  destruct op as [n sn|c i s|b|b|s|b|b|b|s|]; simpl; try reflexivity;
    try (eexists _, _; repeat split; fail);
    destruct b; eexists _, _; repeat split.
Qed.

Lemma state_warning_not_name (name digits : string) :
  ("  + Failed to set " ++ name ++ " state to: " ++ digits)%string
  <> "  + Failed to set name"%string.
Proof.
  intros E. repeat (injection E as E).
  apply (f_equal String.length) in E.
  rewrite !string_length_app in E. simpl in E. lia.
Qed.

Lemma state_warning_not_advertising (name digits : string) :
  ("  + Failed to set " ++ name ++ " state to: " ++ digits)%string
  <> "  + Failed to start advertising with UUID"%string.
Proof.
  intros E. simpl in E. discriminate E.
Qed.

(** C8: an operation hands its frame to the adapter once and returns
    the adapter's verdict.  On a rejection it appends one warning to the
    log and nothing else happens; on an acceptance the log is left as it
    was.  The warning is the text written out in [warning_of]: it tells
    which kind of operation failed, since the texts of [setName], of the
    state setters and of [addAdvertising] differ whatever the table of
    command names holds, and for a state setter it carries the table's
    name of the command code and the decimal of the state that are in the
    frame sent, so that two attempts under one command code with
    different states are logged differently. *)
Theorem verdict_propagated (self : Mgmt) (op : PublicOp) (w : World)
    (accepted : bool) (a' : adapter) :
  sendCommand (Request_bytes (frame_of self op)) (w_adapter w) = (accepted, a') ->
  (accepted = false ->
   run self op w
   = (false, mkWorld a' (w_sent w ++ [frame_of self op])
                     (w_warnings w ++ [warning_of op])))
  /\ (accepted = true ->
      run self op w
      = (true, mkWorld a' (w_sent w ++ [frame_of self op]) (w_warnings w)))
  /\ (forall op' : PublicOp,
        warning_of op = warning_of op' ->
        op_kind op = op_kind op'
        /\ (op_command op = op_command op' -> op_state op = op_state op'))
  /\ (forall c s : Z,
        op_command op = Some c -> op_state op = Some s ->
        frame_of self op
          = ReqSetState
              (mkSetStateRequest
                 (mkHciHeader c (controllerId (Request_hdr (frame_of self op))) 1)
                 s)
        /\ warning_of op
           = ("  + Failed to set " ++ kCommandCodeNames c
              ++ " state to: " ++ pretty s)%string).
Proof.
  intros Hsend. rewrite run_frame_of, Hsend.
  split; [intros ->; reflexivity|].
  split; [intros ->; now rewrite app_nil_r|].
  split.
  - intros op' E.
    pose proof (warning_of_shape op) as S1.
    pose proof (warning_of_shape op') as S2.
    destruct (op_kind op) eqn:K1, (op_kind op') eqn:K2;
      try destruct S1 as (c1 & s1 & C1 & T1 & S1);
      try destruct S2 as (c2 & s2 & C2 & T2 & S2);
      rewrite S1, S2 in E;
      try discriminate E;
      try (exfalso; eapply state_warning_not_name; eauto; fail);
      try (exfalso; eapply state_warning_not_advertising; eauto; fail);
      try (split; [reflexivity|];
           destruct op; try discriminate K1;
           destruct op'; try discriminate K2; reflexivity).
    split; [reflexivity|]. intros Ec.
    rewrite C1, C2 in Ec. injection Ec as <-.
    do 3 apply (inj _) in E. apply (inj pretty) in E.
    now rewrite T1, T2, E.
  - intros c s Hc Hs.
    destruct op as [n sn|c0 i s0|b|b|s0|b|b|b|s0|];
      try discriminate Hc; simpl in Hc, Hs;
      injection Hc as <-; injection Hs as <-;
      try (split; reflexivity);
      destruct b; split; reflexivity.
Qed.

(** C9: [setState], [setAdvertising] and [setSecureConnections] send
    whatever 8-bit state they are given, also one outside 0..2: the frame
    is sent with that value as its state, and the payload byte of its
    image has that value. *)
Theorem state_forwarded_unchecked (self : Mgmt)
    (commandCode controllerId newState : Z) (w : World) :
  0 <= newState < 256 ->
  (w_sent (setState self commandCode controllerId newState w).2
     = w_sent w ++ [ReqSetState (setState_request commandCode controllerId newState)]
   /\ w_sent (setAdvertising self newState w).2
      = w_sent w ++ [ReqSetState (setState_request
                       (u16 (commandValue ESetAdvertisingCommand))
                       (controllerIndex self) newState)]
   /\ w_sent (setSecureConnections self newState w).2
      = w_sent w ++ [ReqSetState (setState_request
                       (u16 (commandValue ESetSecureConnectionsCommand))
                       (controllerIndex self) newState)])
  /\ (forall c i : Z,
        ss_state (setState_request c i newState) = newState
        /\ exists b : byte,
             drop 6 (Request_bytes (ReqSetState (setState_request c i newState)))
             = [b]
             /\ Z_of_byte b = newState).
Proof.
  intros Hrange. split.
  - split; [exact (run_sent self (OpSetState commandCode controllerId newState) w)|].
    split; [exact (run_sent self (OpSetAdvertising newState) w)|].
    exact (run_sent self (OpSetSecureConnections newState) w).
  - intros c i. split; [reflexivity|].
    exists (byte_of_Z newState). split; [reflexivity|].
    now apply Z_of_byte_of_Z.
Qed.

(** C10: an instance keeps the controller index it was constructed
    with, and every operation other than a direct call of [setState] puts
    that index into the header of the frame it sends; [setState] puts in
    the index it is passed. *)
Theorem controller_index_fixed (idx : Z) (w0 : World) (op : PublicOp)
    (w : World) :
  is_setState op = false ->
  let self := (Mgmt_new idx w0).1 in
  controllerIndex self = idx
  /\ (exists frame : Request,
        w_sent (run self op w).2 = w_sent w ++ [frame]
        /\ controllerId (Request_hdr frame) = idx)
  /\ (forall c i s : Z,
        w_sent (setState self c i s w).2
        = w_sent w ++ [ReqSetState (setState_request c i s)]
        /\ controllerId (ss_hdr (setState_request c i s)) = i).
Proof.
  intros Hop self.
  split; [reflexivity|]. split.
  - exists (frame_of self op). split; [apply run_sent|].
    destruct op; try reflexivity. discriminate Hop.
  - intros c i s. split; [|reflexivity].
    exact (run_sent self (OpSetState c i s) w).
Qed.

(** C2, as the code has it: the frame [addAdvertising] sends declares
    31 advertising bytes and 17 scan response bytes, the full size of
    each buffer.  The entries in each buffer span exactly the declared
    number of bytes: the length byte 1B of the manufacturer entry reaches
    over the ten reserved zero bytes 21..30, although only bytes 0..20 of
    the advertising buffer are assigned. *)
Theorem addAdvertising_lengths (self : Mgmt) (w : World) :
  let request := addAdvertising_request self in
  w_sent (addAdvertising self w).2 = w_sent w ++ [ReqAddAdvertising request]
  /\ aa_advDataLen request = 31
  /\ aa_scanRspLen request = 17
  /\ aa_advDataLen request = Z.of_nat (length (aa_data request))
  /\ aa_scanRspLen request = Z.of_nat (length (aa_scanRspData request))
  /\ ad_span (ad_parse (aa_data request)) = aa_advDataLen request
  /\ ad_span (ad_parse (aa_scanRspData request)) = aa_scanRspLen request
  /\ adv_data_stores.*1 = seq 0 21
  /\ drop 21 (aa_data request) = replicate 10 x00.
Proof.
  intros request.
  split; [exact (run_sent self OpAddAdvertising w)|].
  repeat split.
Qed.

End FacadeProperties.

(** ** The properties at concrete inputs *)

(** A twelve-character name passes [truncateName] unchanged and is cut
    to ten characters by [truncateShortName]. *)
Lemma truncate_spec_witness :
  let name := list_byte_of_string "Gobbledegook" in
  ((length name <= 248)%nat /\ @truncateName sample_decls name = name)
  /\ ((10 < length name)%nat
      /\ length (@truncateShortName sample_decls name) = 10%nat).
Proof.
  intros name.
  destruct (@truncate_spec sample_decls name)
    as [(_ & _ & Hid & _) (_ & _ & _ & Hcut)].
  split; split.
  - vm_compute. lia.
  - apply Hid. vm_compute. lia.
  - vm_compute. lia.
  - apply Hcut. vm_compute. lia.
Defined.

(** A name with an embedded NUL: the bytes past its length are zero in
    the name buffer, and so is the last byte of the short-name buffer for
    a short name of twelve characters. *)
Lemma setName_zero_padded_witness :
  let name := [x41; x42; x00; x43] in
  let shortName := list_byte_of_string "Gobbledegook" in
  let request := @setName_request sample_decls sample_self name shortName in
  ((length (@truncateName sample_decls name) <= 4 < 249)%nat
   /\ sn_name request !! 4%nat = Some x00)
  /\ ((length (@truncateShortName sample_decls shortName) <= 10 < 11)%nat
      /\ sn_shortName request !! 10%nat = Some x00).
Proof.
  intros name shortName request.
  destruct (@setName_zero_padded sample_decls rejecting_transport sample_self
              name shortName sample_world)
    as (_ & (_ & _ & _ & _ & _ & Hname) & (_ & _ & _ & _ & _ & Hshort)).
  split; split.
  - vm_compute. lia.
  - apply Hname. vm_compute. lia.
  - vm_compute. lia.
  - apply Hshort. vm_compute. lia.
Defined.

(** Against a transport that rejects everything, [setPowered(true)]
    returns [false] and logs its one warning; against one that accepts
    everything it returns [true] and logs nothing. *)
Lemma verdict_propagated_witness :
  (@sendCommand rejecting_transport
      (Request_bytes (@frame_of sample_decls sample_self (OpSetPowered true)))
      (w_adapter sample_world) = (false, tt)
   /\ @run sample_decls rejecting_transport sample_self (OpSetPowered true)
           sample_world
      = (false,
         mkWorld (tt : @adapter rejecting_transport)
                 [@frame_of sample_decls sample_self (OpSetPowered true)]
                 ["  + Failed to set Command 5 state to: 1"%string]))
  /\
  (@sendCommand accepting_transport
      (Request_bytes (@frame_of sample_decls sample_self (OpSetPowered true)))
      (w_adapter sample_world_ok) = (true, tt)
   /\ @run sample_decls accepting_transport sample_self (OpSetPowered true)
           sample_world_ok
      = (true,
         mkWorld (tt : @adapter accepting_transport)
                 [@frame_of sample_decls sample_self (OpSetPowered true)]
                 [])).
Proof.
  split; (split; [reflexivity|]).
  - apply (@verdict_propagated sample_decls rejecting_transport sample_self
             (OpSetPowered true) sample_world false tt);
      reflexivity.
  - apply (@verdict_propagated sample_decls accepting_transport sample_self
             (OpSetPowered true) sample_world_ok true tt);
      reflexivity.
Defined.

(** The out-of-range level 7 is sent as it is. *)
Lemma state_forwarded_unchecked_witness :
  0 <= 7 < 256
  /\ w_sent (@setAdvertising sample_decls rejecting_transport sample_self 7
               sample_world).2
     = [ReqSetState (mkSetStateRequest (mkHciHeader 0x0029 0 1) 7)].
Proof.
  split; [lia|].
  apply (@state_forwarded_unchecked sample_decls rejecting_transport
           sample_self 0 0 7 sample_world).
  lia.
Defined.

(** An instance constructed for controller 3 advertises on controller 3. *)
Lemma controller_index_fixed_witness :
  is_setState OpAddAdvertising = false
  /\ exists frame : Request,
       w_sent (@run sample_decls rejecting_transport
                 (@Mgmt_new rejecting_transport 3 sample_world).1
                 OpAddAdvertising sample_world).2
       = w_sent sample_world ++ [frame]
       /\ controllerId (Request_hdr frame) = 3.
Proof.
  split; [reflexivity|].
  apply (@controller_index_fixed sample_decls rejecting_transport 3
           sample_world OpAddAdvertising sample_world).
  reflexivity.
Defined.

(** The advertising length the reference frame declares is 31, so the
    pair of lengths is not (21, 17). *)
Lemma addAdvertising_advDataLen_not_21 :
  let request := @addAdvertising_request sample_decls sample_self in
  aa_advDataLen request = 31
  /\ ~ (aa_advDataLen request = 21 /\ aa_scanRspLen request = 17).
Proof.
  intros request. split; [reflexivity|].
  intros [H _]. vm_compute in H. discriminate H.
Qed.

(** * Further properties of the code *)

(** ** Strings *)

Lemma c_str_take (n : nat) (s : cppstring) : c_str (take n s) = take n (c_str s).
Proof.
  revert n. induction s as [|c s IH]; intros [|n]; simpl; try reflexivity.
  destruct (Byte.eqb c x00); [reflexivity|]. simpl. now rewrite IH.
Qed.

Lemma c_str_id (s : cppstring) : x00 ∉ s -> c_str s = s.
Proof.
  induction s as [|c s IH]; simpl; intros Hs; [reflexivity|].
  apply not_elem_of_cons in Hs as [Hc Hs].
  destruct (Byte.eqb c x00) eqn:E.
  - apply Byte.byte_dec_bl in E. congruence.
  - now rewrite IH.
Qed.

Lemma c_str_zero_padded (s : list byte) (n : nat) (rest : list byte) :
  x00 ∉ s -> c_str ((s ++ replicate (S n) x00) ++ rest) = s.
Proof.
  intros Hs. simpl. rewrite <- app_assoc. simpl. now apply c_str_stops.
Qed.

Lemma truncate_take (limit : nat) (name : cppstring) :
  (if (str_length name <=? limit)%nat then name else substr0 name limit)
  = take limit name.
Proof.
  unfold str_length, substr0.
  destruct (length name <=? limit)%nat eqn:E; [|reflexivity].
  apply Nat.leb_le in E. now rewrite take_ge.
Qed.

Lemma zeroed_buffer_filled (n limit : nat) (s : cppstring) :
  snprintf_s (memset0 (S n)) (S n) (c_str (take limit s))
  = take (limit `min` n) (c_str s)
    ++ replicate (S n - length (take (limit `min` n) (c_str s))) x00.
Proof.
  rewrite snprintf_s_zeroed, c_str_take, take_take.
  now rewrite (Nat.min_comm n limit).
Qed.

Section FurtherProperties.

Context {decls : MgmtDecls} {hci : Transport}.

(** X1: truncating twice is truncating once, for both functions, and
    [setName] does the same whether or not its caller has truncated the
    two strings beforehand. *)
Theorem truncate_idempotent (self : Mgmt) (name shortName : cppstring) :
  truncateName (truncateName name) = truncateName name
  /\ truncateShortName (truncateShortName shortName)
     = truncateShortName shortName
  /\ setName self (truncateName name) (truncateShortName shortName)
     = setName self name shortName.
Proof.
  assert (truncateName (truncateName name) = truncateName name) as Hn.
  { unfold truncateName. rewrite !truncate_take, take_take. f_equal. lia. }
  assert (truncateShortName (truncateShortName shortName)
          = truncateShortName shortName) as Hs.
  { unfold truncateShortName. rewrite !truncate_take, take_take. f_equal. lia. }
  split; [exact Hn|]. split; [exact Hs|].
  unfold setName, setName_request. now rewrite Hn, Hs.
Qed.

(** X2: both truncations are [substr(0, limit)] whatever the length of
    the string, so they commute, and one after the other cuts to the
    smaller of the two limits. *)
Theorem truncate_compose (name : cppstring) :
  truncateName name = take kMaxAdvertisingNameLength name
  /\ truncateShortName name = take kMaxAdvertisingShortNameLength name
  /\ truncateShortName (truncateName name)
     = take (kMaxAdvertisingShortNameLength `min` kMaxAdvertisingNameLength)
            name
  /\ truncateShortName (truncateName name)
     = truncateName (truncateShortName name).
Proof.
  unfold truncateName, truncateShortName.
  rewrite !truncate_take, !take_take.
  repeat split. f_equal. lia.
Qed.

(** X3: the name buffer of the frame [setName] sends holds the
    characters of the name before its first NUL, cut to the smaller of
    [kMaxAdvertisingNameLength] and 248, then zeros; the short-name
    buffer likewise with [kMaxAdvertisingShortNameLength] and 10.  So
    characters after an embedded NUL never reach the frame, and a limit
    above the buffer size does not overflow the buffer. *)
Theorem setName_buffers (self : Mgmt) (name shortName : cppstring) :
  let request := setName_request self name shortName in
  let sent := take (kMaxAdvertisingNameLength `min` 248) (c_str name) in
  let sentShort :=
    take (kMaxAdvertisingShortNameLength `min` 10) (c_str shortName) in
  sn_name request = sent ++ replicate (249 - length sent) x00
  /\ sn_shortName request
     = sentShort ++ replicate (11 - length sentShort) x00
  /\ (length sent <= 248)%nat
  /\ (length sentShort <= 10)%nat.
Proof.
  intros request sent sentShort.
  unfold request, setName_request, truncateName, truncateShortName; simpl.
  rewrite !truncate_take.
  split; [apply zeroed_buffer_filled|].
  split; [apply zeroed_buffer_filled|].
  unfold sent, sentShort. rewrite !length_take. lia.
Qed.

(** X4: a name and a short name without NUL characters that fit both
    their limit and their buffer come out of the frame [setName] sends
    as they went in: the C string at offset 6 of the image is the name,
    the C string at offset 255 is the short name. *)
Theorem setName_round_trip (self : Mgmt) (name shortName : cppstring)
    (w : World) :
  x00 ∉ name -> x00 ∉ shortName ->
  (length name <= kMaxAdvertisingNameLength `min` 248)%nat ->
  (length shortName <= kMaxAdvertisingShortNameLength `min` 10)%nat ->
  exists image : list byte,
    w_sent (setName self name shortName w).2
      = w_sent w ++ [ReqSetName (setName_request self name shortName)]
    /\ image = Request_bytes (ReqSetName (setName_request self name shortName))
    /\ length image = 266%nat
    /\ c_str (drop 6 image) = name
    /\ c_str (drop 255 image) = shortName.
Proof.
  intros Hn Hs Hlen HlenS.
  eexists. split; [exact (run_sent self (OpSetName name shortName) w)|].
  split; [reflexivity|].
  destruct (setName_buffers self name shortName) as (En & Es & _ & _).
  rewrite !c_str_id in En, Es by assumption.
  rewrite !take_ge in En, Es by assumption.
  set (request := setName_request self name shortName) in *.
  assert (length (sn_name request) = 249%nat) as Ln
    by apply snprintf_s_zeroed_length.
  assert (length (sn_shortName request) = 11%nat) as Ls
    by apply snprintf_s_zeroed_length.
  change (Request_bytes (ReqSetName request))
    with (le16 (code (sn_hdr request)) ++ le16 (controllerId (sn_hdr request))
          ++ le16 (dataSize (sn_hdr request))
          ++ sn_name request ++ sn_shortName request).
  split; [|split].
  - rewrite !length_app, Ln, Ls. reflexivity.
  - change (c_str (sn_name request ++ sn_shortName request) = name).
    rewrite En.
    replace (249 - length name)%nat with (S (248 - length name)) by lia.
    now apply c_str_zero_padded.
  - change (c_str (drop 249 (sn_name request ++ sn_shortName request))
            = shortName).
    rewrite drop_app_length' by (symmetry; exact Ln).
    rewrite Es.
    replace (11 - length shortName)%nat with (S (10 - length shortName))
      by lia.
    rewrite <- (app_nil_r (shortName ++ replicate _ x00)).
    now apply c_str_zero_padded.
Qed.

Lemma feed_length (a : adapter) (frames : list Request) :
  length (feed a frames).1 = length frames.
Proof.
  revert a. induction frames as [|f fs IH]; intros a; simpl; [reflexivity|].
  destruct (sendCommand _ a) as [v a'].
  specialize (IH a'). destruct (feed a' fs) as [vs a'']. simpl in *.
  now rewrite IH.
Qed.

Lemma rejected_warnings_length (ops : list PublicOp) (vs : list bool) :
  length ops = length vs ->
  length (rejected_warnings ops vs) = length (filter (fun v => v = false) vs).
Proof.
  revert vs. induction ops as [|op ops IH]; intros [|v vs] Hlen;
    try reflexivity; try discriminate Hlen.
  injection Hlen as Hlen.
  change (rejected_warnings (op :: ops) (v :: vs))
    with ((if v then [] else [warning_of op]) ++ rejected_warnings ops vs).
  rewrite length_app, IH by exact Hlen.
  destruct v.
  - rewrite filter_cons_False by discriminate. reflexivity.
  - rewrite filter_cons_True by reflexivity. reflexivity.
Qed.

Lemma run_all_feed (self : Mgmt) (ops : list PublicOp) (w : World) :
  run_all self ops w =
  let (verdicts, a') := feed (w_adapter w) (map (frame_of self) ops) in
  (verdicts,
   mkWorld a' (w_sent w ++ map (frame_of self) ops)
           (w_warnings w ++ rejected_warnings ops verdicts)).
Proof.
  revert w. induction ops as [|op ops IH]; intros w.
  - simpl. unfold ret. rewrite !app_nil_r. now destruct w.
  - simpl. unfold bind at 1. rewrite run_frame_of.
    destruct (sendCommand _ (w_adapter w)) as [v a1].
    unfold bind at 1. rewrite IH. simpl.
    destruct (feed a1 (map (frame_of self) ops)) as [vs a2].
    unfold ret. rewrite <- !app_assoc. reflexivity.
Qed.

(** X5: a caller that constructs an instance and issues operations one
    after the other drives the adapter like a pipe.  The adapter is
    synchronised once, before anything is sent, and then sees one frame
    per operation, in order, whatever the earlier verdicts were; the
    results are the adapter's verdicts, one per operation; the log
    gains the warnings of the rejected operations, in order, as many as
    there are [false] results; nothing sent or logged before is touched. *)
Theorem session_pipeline (idx : Z) (ops : list PublicOp) (w : World) :
  let self := mkMgmt idx in
  let frames := map (frame_of self) ops in
  let outcome := feed (sync idx (w_adapter w)) frames in
  bind (Mgmt_new idx) (fun self => run_all self ops) w
  = (outcome.1,
     mkWorld outcome.2 (w_sent w ++ frames)
             (w_warnings w ++ rejected_warnings ops outcome.1))
  /\ length outcome.1 = length ops
  /\ length (rejected_warnings ops outcome.1)
     = length (filter (fun v => v = false) outcome.1).
Proof.
  intros self frames outcome.
  assert (length outcome.1 = length ops) as Hlen.
  { unfold outcome, frames. now rewrite feed_length, length_map. }
  split; [|split; [exact Hlen|]].
  - unfold bind, Mgmt_new, bind, HciAdapter_sync, ret. simpl.
    rewrite run_all_feed. simpl. fold self frames outcome.
    now destruct outcome.
  - apply rejected_warnings_length. now rewrite Hlen.
Qed.

Lemma le16_decode_le16 (x : Z) :
  0 <= x < 65536 ->
  le16_decode (byte_of_Z x) (byte_of_Z (x / 2^8)) = x.
Proof.
  intros Hx. unfold le16_decode.
  assert (forall y, Z_of_byte (byte_of_Z y) = y mod 256) as Hb.
  { intros y. unfold Z_of_byte, byte_of_Z, u8. change (2^8) with 256.
    pose proof (Z.mod_pos_bound y 256 ltac:(lia)) as Hy.
    destruct (Byte.of_N (Z.to_N (y mod 256))) as [b|] eqn:E.
    - apply Byte.to_of_N in E. rewrite E. lia.
    - apply Byte.of_N_None_iff in E. lia. }
  rewrite !Hb. change (2^8) with 256.
  rewrite (Z.mod_small (x / 256)).
  - pose proof (Z.div_mod x 256 ltac:(lia)). lia.
  - split; [apply Z.div_pos; lia|]. apply Z.div_lt_upper_bound; lia.
Qed.

(** X6: the header of a frame can be read back from its image.  For an
    instance whose controller index fits 16 bits, the first six bytes of
    the frame any operation sends decode to the frame's command code,
    controller index and payload length; a direct [setState] call needs
    its two 16-bit arguments in range as well. *)
Theorem header_round_trip (self : Mgmt) (op : PublicOp) :
  0 <= controllerIndex self < 65536 ->
  (forall c i s : Z, op = OpSetState c i s -> 0 <= c < 65536 /\ 0 <= i < 65536) ->
  HciHeader_decode (Request_bytes (frame_of self op))
  = Some (Request_hdr (frame_of self op)).
Proof.
  intros Hidx Hop.
  assert (forall c : Commands, 0 <= command_code c < 65536) as Hcode.
  { intros c. unfold command_code, u16. change (2^16) with 65536.
    apply Z.mod_pos_bound. lia. }
  assert (forall r : Request,
    0 <= code (Request_hdr r) < 65536 ->
    0 <= controllerId (Request_hdr r) < 65536 ->
    0 <= dataSize (Request_hdr r) < 65536 ->
    HciHeader_decode (Request_bytes r) = Some (Request_hdr r)) as Hdec.
  { intros r Hc Hi Hd.
    destruct r as [[[c i d] ? ?]|[[c i d] ?]|[[c i d] ? ? ? ? ? ? ? ?]];
      simpl in *; now rewrite !le16_decode_le16. }
  apply Hdec; destruct op; simpl;
    try apply Hcode; try exact Hidx; try (vm_compute; split; congruence).
  - apply (Hop _ _ _ eq_refl).
  - apply (Hop _ _ _ eq_refl).
Qed.

Lemma c_str_padded (s : list byte) (n : nat) :
  x00 ∉ s -> c_str (s ++ replicate (S n) x00) = s.
Proof.
  intros Hs. rewrite <- (app_nil_r (s ++ _)). now apply c_str_zero_padded.
Qed.

Lemma take_c_str_no_nul (m : nat) (s : cppstring) : x00 ∉ take m (c_str s).
Proof.
  intros Hin. apply (c_str_no_nul s).
  apply elem_of_take in Hin as (i & Hi & _).
  eapply list_elem_of_lookup_2, Hi.
Qed.

Lemma padded_inj (s t : list byte) (size : nat) :
  x00 ∉ s -> x00 ∉ t -> (length s < size)%nat -> (length t < size)%nat ->
  s ++ replicate (size - length s) x00 = t ++ replicate (size - length t) x00 ->
  s = t.
Proof.
  intros Hs Ht Ls Lt E. apply (f_equal c_str) in E.
  replace (size - length s)%nat with (S (size - 1 - length s)) in E by lia.
  replace (size - length t)%nat with (S (size - 1 - length t)) in E by lia.
  now rewrite !c_str_padded in E.
Qed.

(** X7: two calls of [setName] on the same instance build the same
    frame exactly when the names agree on their characters before the
    first NUL, up to the smaller of the limit and 248, and the short
    names do up to the smaller of their limit and 10.  Nothing else of
    the two strings reaches the adapter. *)
Theorem setName_same_frame (self : Mgmt) (name1 short1 name2 short2 : cppstring) :
  setName_request self name1 short1 = setName_request self name2 short2
  <->
  take (kMaxAdvertisingNameLength `min` 248) (c_str name1)
  = take (kMaxAdvertisingNameLength `min` 248) (c_str name2)
  /\ take (kMaxAdvertisingShortNameLength `min` 10) (c_str short1)
     = take (kMaxAdvertisingShortNameLength `min` 10) (c_str short2).
Proof.
  destruct (setName_buffers self name1 short1) as (En1 & Es1 & Ln1 & Ls1).
  destruct (setName_buffers self name2 short2) as (En2 & Es2 & Ln2 & Ls2).
  split.
  - intros E.
    pose proof (f_equal sn_name E) as Hn.
    pose proof (f_equal sn_shortName E) as Hs.
    rewrite En1, En2 in Hn. rewrite Es1, Es2 in Hs.
    split; eapply padded_inj; try eassumption;
      try apply take_c_str_no_nul; lia.
  - intros [Hn Hs].
    change (mkSetNameRequest (sn_hdr (setName_request self name1 short1))
              (sn_name (setName_request self name1 short1))
              (sn_shortName (setName_request self name1 short1))
            = mkSetNameRequest (sn_hdr (setName_request self name1 short1))
              (sn_name (setName_request self name2 short2))
              (sn_shortName (setName_request self name2 short2))).
    now rewrite En1, En2, Es1, Es2, Hn, Hs.
Qed.

(** X8: [setState] frames do not collide.  Two calls whose command
    codes and controller indices fit 16 bits and whose states fit 8 bits
    hand the adapter the same seven bytes only if all three arguments
    are the same. *)
Theorem setState_image_injective (c i s c' i' s' : Z) :
  0 <= c < 65536 -> 0 <= i < 65536 -> 0 <= s < 256 ->
  0 <= c' < 65536 -> 0 <= i' < 65536 -> 0 <= s' < 256 ->
  Request_bytes (ReqSetState (setState_request c i s))
  = Request_bytes (ReqSetState (setState_request c' i' s')) ->
  c = c' /\ i = i' /\ s = s'
  /\ length (Request_bytes (ReqSetState (setState_request c i s))) = 7%nat.
Proof.
  intros Hc Hi Hs Hc' Hi' Hs' E. simpl in E.
  injection E as Ec0 Ec1 Ei0 Ei1 Es.
  repeat split.
  - rewrite <- (le16_decode_le16 c), <- (le16_decode_le16 c') by assumption.
    now rewrite Ec0, Ec1.
  - rewrite <- (le16_decode_le16 i), <- (le16_decode_le16 i') by assumption.
    now rewrite Ei0, Ei1.
  - rewrite <- (Z_of_byte_of_Z s), <- (Z_of_byte_of_Z s') by assumption.
    now rewrite Es.
Qed.

End FurtherProperties.

(** ** The further properties at concrete inputs *)

Ltac no_nul :=
  vm_compute;
  repeat (apply not_elem_of_cons; split; [discriminate|]);
  apply not_elem_of_nil.

(** The name Gobbledegook and the short name ggk are read back from the
    frame as they were given. *)
Lemma setName_round_trip_witness :
  let name := list_byte_of_string "Gobbledegook" in
  let shortName := list_byte_of_string "ggk" in
  let image :=
    Request_bytes
      (ReqSetName (@setName_request sample_decls sample_self name shortName)) in
  c_str (drop 6 image) = name /\ c_str (drop 255 image) = shortName.
Proof.
  intros name shortName image.
  destruct (@setName_round_trip sample_decls rejecting_transport sample_self
              name shortName sample_world)
    as (image' & _ & -> & _ & Hname & Hshort).
  - no_nul.
  - no_nul.
  - vm_compute. lia.
  - vm_compute. lia.
  - split; assumption.
Defined.

(** The header of a [setState] frame for command 5 on controller 0 is
    read back from its image. *)
Lemma header_round_trip_witness :
  HciHeader_decode
    (Request_bytes (@frame_of sample_decls sample_self (OpSetState 5 0 1)))
  = Some (mkHciHeader 5 0 1).
Proof.
  apply (@header_round_trip sample_decls sample_self (OpSetState 5 0 1)).
  - simpl. lia.
  - intros c i s E. injection E as <- <- <-. lia.
Defined.

(** Two names that differ only after an embedded NUL give the same
    frame. *)
Lemma setName_same_frame_witness :
  @setName_request sample_decls sample_self
     [x41; x42; x00; x43] [x61]
  = @setName_request sample_decls sample_self
     [x41; x42; x00; x44; x45] [x61; x00; x62].
Proof.
  apply (@setName_same_frame sample_decls sample_self).
  split; reflexivity.
Defined.

(** Powering on and powering off are different frames. *)
Lemma setState_image_injective_witness :
  Request_bytes (ReqSetState (setState_request 5 0 1))
  <> Request_bytes (ReqSetState (setState_request 5 0 0)).
Proof.
  intros E.
  apply setState_image_injective in E as (_ & _ & E & _); [|lia ..].
  discriminate E.
Defined.
